(** * fota-server: the IMEI whitelist gateway of [server.py]

    A shallow embedding of [make_object_url], [Server.load_whitelist] and
    [Server.handle_request], and the properties of the redirect decision and
    of the whitelist refresh that the specification states about them.

    Collaborators that [server.py] only calls (the boto3 S3 client, the
    aiohttp client, the asyncio event loop) appear as explicit parameters or
    as explicit state.  Calls to [log] are left out: the logging module
    reports its own errors and never raises into the caller, and no other
    statement reads what was logged. *)

From Stdlib Require Import ZArith QArith String Ascii List.
From stdpp Require Import base decidable countable gmap strings list.
Import ListNotations.

Local Open Scope Z_scope.
Local Open Scope string_scope.
Local Open Scope list_scope.

(** ** Python values and exceptions *)

(** The exceptions that can travel through the code.  [External] stands for
    whatever a collaborator (boto3, aiohttp, the JSON decoder) raises; the
    other constructors are raised by the interpreter for the statements of
    [server.py] itself. *)
Inductive exn : Type :=
| ValueError (msg : string)
| KeyError (key : string)
| TypeError (msg : string)
| AssertionError
| External (name : string).

Inductive outcome (A : Type) : Type :=
| Return (a : A)
| Raise (e : exn).
Arguments Return {A} a.
Arguments Raise {A} e.

Definition obind {A B} (m : outcome A) (k : A -> outcome B) : outcome B :=
  match m with
  | Return a => k a
  | Raise e => Raise e
  end.

(** What a collaborator hands back: a value, or the name of the exception it
    raised, which reaches the caller as [External]. *)
Inductive io_result (A : Type) : Type :=
| Ok (a : A)
| Failed (name : string).
Arguments Ok {A} a.
Arguments Failed {A} name.

Definition from_io {A} (r : io_result A) : outcome A :=
  match r with
  | Ok a => Return a
  | Failed name => Raise (External name)
  end.

Global Instance outcome_ret : MRet outcome := fun A a => Return a.
Global Instance outcome_bind : MBind outcome := fun A B k m => obind m k.

(** What [json.loads] hands back: [None], booleans, integers, strings, lists
    and dicts with string keys.  A dict is kept as the list of its items;
    subscripting takes the first item with the key.  Numbers are the integer
    ones. *)
#[local] Set Warnings "-register-all".
Inductive pyval : Type :=
| PNone
| PBool (b : bool)
| PInt (z : Z)
| PStr (s : string)
| PList (l : list pyval)
| PDict (d : list (string * pyval)).
#[local] Set Warnings "register-all".

Fixpoint dict_get (d : list (string * pyval)) (key : string) : option pyval :=
  match d with
  | [] => None
  | (k, v) :: d' => if String.eqb k key then Some v else dict_get d' key
  end.

(** [v[key]] for a string [key]. *)
Definition py_getitem (v : pyval) (key : string) : outcome pyval :=
  match v with
  | PDict d =>
      match dict_get d key with
      | Some x => Return x
      | None => Raise (KeyError key)
      end
  | PList _ => Raise (TypeError "list indices must be integers")
  | PStr _ => Raise (TypeError "string indices must be integers")
  | _ => Raise (TypeError "object is not subscriptable")
  end.

(** The items [for w in v] runs through. *)
Definition py_iter (v : pyval) : outcome (list pyval) :=
  match v with
  | PList l => Return l
  | PStr s => Return (map (fun c => PStr (String c EmptyString)) (list_ascii_of_string s))
  | PDict d => Return (map (fun kv => PStr (fst kv)) d)
  | _ => Raise (TypeError "object is not iterable")
  end.

(** Members of a Python [set], up to [==]: [True == 1] and [False == 0], and
    values of different kinds are otherwise different. *)
Inductive pykey : Type :=
| KNone
| KInt (z : Z)
| KStr (s : string).

Global Instance pykey_eq_dec : EqDecision pykey.
Proof. solve_decision. Defined.

Global Instance pykey_countable : Countable pykey.
Proof.
  refine (inj_countable'
    (fun k => match k with
              | KNone => inl tt
              | KInt z => inr (inl z)
              | KStr s => inr (inr s)
              end)
    (fun x => match x with
              | inl _ => KNone
              | inr (inl z) => KInt z
              | inr (inr s) => KStr s
              end) _).
  intros []; reflexivity.
Defined.

(** Hashing a value as [set(...)] does when it adds it. *)
Definition py_hash (v : pyval) : outcome pykey :=
  match v with
  | PNone => Return KNone
  | PBool b => Return (KInt (if b then 1 else 0))
  | PInt z => Return (KInt z)
  | PStr s => Return (KStr s)
  | PList _ => Raise (TypeError "unhashable type: 'list'")
  | PDict _ => Raise (TypeError "unhashable type: 'dict'")
  end.

(** [x in (a, b, ...)] for strings. *)
Definition in_tuple (x : string) (t : list string) : bool :=
  existsb (String.eqb x) t.

Definition char_in (c : ascii) (chars : string) : bool :=
  existsb (Ascii.eqb c) (list_ascii_of_string chars).

(** [s.lstrip(chars)]: drop leading characters for as long as they are among
    [chars]. *)
Fixpoint lstrip (s : string) (chars : string) : string :=
  match s with
  | EmptyString => EmptyString
  | String c s' => if char_in c chars then lstrip s' chars else s
  end.

(** ** make_object_url *)

(** The client [boto3.client('s3')] returns, as far as it is used: its
    [generate_presigned_url(ClientMethod, Params, ExpiresIn, HttpMethod)]. *)
Record S3Client : Type := {
  generate_presigned_url :
    string -> gmap string pyval -> Z -> string -> io_result string
}.

Definition make_object_url (s3 : S3Client)
    (bucket_name object_name request_method : string) (expires_in : Z)
    (api_kwargs : gmap string pyval) : outcome string :=
  api_method ←
    (if in_tuple request_method ["GET"; "HEAD"] then Return "get_object"
     else if in_tuple request_method ["PUT"; "POST"] then Return "put_object"
     else Raise (ValueError ("Unsupported request_method: " +:+ request_method)));
  let api_args : gmap string pyval :=
    api_kwargs ∪ {[ "Bucket" := PStr bucket_name; "Key" := PStr object_name ]} in
  from_io (generate_presigned_url s3 api_method api_args expires_in request_method).

(** ** The server object and a request *)

Record Server : Type := {
  bucket_name : string;
  whitelist_object_name : string;
  imei_whitelist : gset pykey;
  expiry_time : Z;
  whitelist_refresh_period : Z
}.

(** [Server.__init__]; the two periods are class attributes read from the
    environment. *)
Definition Server_init (URL_EXPIRY_TIME WHITELIST_REFRESH : Z)
    (bucket whitelist_name : string) : Server :=
  {| bucket_name := bucket;
     whitelist_object_name := whitelist_name;
     imei_whitelist := ∅;
     expiry_time := URL_EXPIRY_TIME;
     whitelist_refresh_period := WHITELIST_REFRESH |}.

Definition set_imei_whitelist (self : Server) (s : gset pykey) : Server :=
  {| bucket_name := bucket_name self;
     whitelist_object_name := whitelist_object_name self;
     imei_whitelist := s;
     expiry_time := expiry_time self;
     whitelist_refresh_period := whitelist_refresh_period self |}.

(** [request.GET] is a multidict: a key may occur several times, [in] asks
    whether it occurs, and subscripting gives its first value. *)
Record Request : Type := {
  method : string;
  path : string;
  GET : list (string * string)
}.

Definition multidict_contains (key : string) (d : list (string * string)) : bool :=
  existsb (fun kv => String.eqb (fst kv) key) d.

Fixpoint multidict_getitem (d : list (string * string)) (key : string) : outcome string :=
  match d with
  | [] => Raise (KeyError key)
  | (k, v) :: d' => if String.eqb k key then Return v else multidict_getitem d' key
  end.

Inductive Response : Type :=
| WebResponse (status : Z) (text : string)
| HTTPFound (location : string).

Definition status_code (r : Response) : Z :=
  match r with
  | WebResponse status _ => status
  | HTTPFound _ => 302
  end.

Definition location_header (r : Response) : option string :=
  match r with
  | WebResponse _ _ => None
  | HTTPFound location => Some location
  end.

(** [assert b], as the interpreter runs it without [-O]. *)
Definition py_assert (b : bool) : outcome unit :=
  if b then Return tt else Raise AssertionError.

(** The object key of a request: [request.path.lstrip('/')]. *)
Definition object_name_of (request : Request) : string :=
  lstrip (path request) "/".

Definition handle_request (s3 : S3Client) (self : Server) (request : Request)
    : outcome Response :=
  if negb (multidict_contains "imei" (GET request)) then
    Return (WebResponse 403 "Forbidden")
  else
    imei ← multidict_getitem (GET request) "imei";
    if negb (bool_decide (KStr imei ∈ imei_whitelist self)) then
      Return (WebResponse 401 "Unauthorized")
    else
      let object_name := object_name_of request in
      if String.eqb object_name (whitelist_object_name self) then
        Return (WebResponse 403 "Forbidden")
      else
        _ ← py_assert (in_tuple (method request) ["GET"; "HEAD"]);
        url ← make_object_url s3 (bucket_name self) object_name
                 (method request) (expiry_time self) ∅;
        Return (HTTPFound url).

(** ** The event loop and load_whitelist *)

(** What [load_whitelist] asks of the event loop: the loop's clock, in
    seconds, and the timers registered with [call_later].  The only callback
    ever registered is [loop.create_task] applied to the coroutine
    [self.load_whitelist()]. *)
Inductive Callback : Type :=
| create_task_load_whitelist.

Record TimerHandle : Type := {
  when : Q;
  callback : Callback
}.

Record EventLoop : Type := {
  clock : Q;
  scheduled : list TimerHandle
}.

Record World : Type := {
  server : Server;
  loop : EventLoop
}.

(** The response of [aiohttp.get] as far as it is used: [resp.json()], an
    awaitable; [status] is carried by the response and never read.  An
    awaitable is given by the time it takes and what it produces. *)
Record ClientResponse : Type := {
  status : Z;
  json : Q * io_result pyval
}.

(** What one run of [load_whitelist] meets outside the process. *)
Record Env : Type := {
  s3 : S3Client;
  aiohttp_get : string -> Q * io_result ClientResponse
}.

(** Statements of a coroutine: they read and change the world, and return or
    raise. *)
Definition M (A : Type) : Type := World -> outcome A * World.

Global Instance M_ret : MRet M := fun A a w => (Return a, w).
Global Instance M_bind : MBind M := fun A B k m w =>
  match m w with
  | (Return a, w') => k a w'
  | (Raise e, w') => (Raise e, w')
  end.

Definition lift {A} (r : outcome A) : M A := fun w => (r, w).

Definition get_self : M Server := fun w => (Return (server w), w).

(** [self.imei_whitelist = s] *)
Definition assign_imei_whitelist (s : gset pykey) : M unit := fun w =>
  (Return tt, {| server := set_imei_whitelist (server w) s; loop := loop w |}).

(** [await io]: the coroutine is suspended while [io] takes its time. *)
Definition await {A} (io : Q * io_result A) : M A := fun w =>
  (from_io (snd io),
   {| server := server w;
      loop := {| clock := (clock (loop w) + fst io)%Q;
                 scheduled := scheduled (loop w) |} |}).

(** [self.loop.call_later(delay, cb)]: the timer is due [delay] seconds
    after the moment of the call. *)
Definition call_later (delay : Z) (cb : Callback) : M unit := fun w =>
  (Return tt,
   {| server := server w;
      loop := {| clock := clock (loop w);
                 scheduled := scheduled (loop w) ++
                   [ {| when := (clock (loop w) + inject_Z delay)%Q;
                        callback := cb |} ] |} |}).

(** [try: body except: handler] with a bare [except], which takes every
    exception. *)
Definition try_except {A} (body : M A) (handler : exn -> M A) : M A := fun w =>
  match body w with
  | (Return a, w') => (Return a, w')
  | (Raise e, w') => handler e w'
  end.

(** [try: body finally: final]: [final] runs either way; what [body] did
    stands unless [final] raises itself. *)
Definition try_finally {A} (body : M A) (final : M unit) : M A := fun w =>
  let '(r, w') := body w in
  match final w' with
  | (Return _, w'') => (r, w'')
  | (Raise e, w'') => (Raise e, w'')
  end.

(** [set(w['imei'] for w in items)]: the entries are taken in order, and the
    first one that cannot be subscripted or hashed raises. *)
Fixpoint imei_keys (items : list pyval) : outcome (list pykey) :=
  match items with
  | [] => Return []
  | w :: items' =>
      v ← py_getitem w "imei";
      k ← py_hash v;
      ks ← imei_keys items';
      Return (k :: ks)
  end.

(** The statements under [try:]. *)
Definition load_whitelist_try (env : Env) : M unit :=
  me ← get_self;
  url ← lift (make_object_url (s3 env) (bucket_name me)
               (whitelist_object_name me) "GET" 30 ∅);
  resp ← await (aiohttp_get env url);
  data ← await (json resp);
  whitelist ← lift (py_getitem data "whitelist");
  items ← lift (py_iter whitelist);
  ks ← lift (imei_keys items);
  assign_imei_whitelist (list_to_set ks).

Definition load_whitelist (env : Env) : M unit :=
  try_finally
    (try_except (load_whitelist_try env) (fun _ => mret tt))
    (me ← get_self;
     call_later (whitelist_refresh_period me) create_task_load_whitelist).

(** The timer that is due first, and the others. *)
Fixpoint earliest (t : TimerHandle) (ts : list TimerHandle)
    : TimerHandle * list TimerHandle :=
  match ts with
  | [] => (t, [])
  | u :: ts' =>
      if Qle_bool (when t) (when u)
      then let '(m, rest) := earliest t ts' in (m, u :: rest)
      else let '(m, rest) := earliest u ts' in (m, t :: rest)
  end.

(** One turn of the loop: the earliest timer fires, not before it is due,
    and its task runs with what it meets outside.  [None] when no timer is
    left. *)
Definition run_timer (env : Env) (w : World) : option (outcome unit * World) :=
  match scheduled (loop w) with
  | [] => None
  | t :: ts =>
      let '(t0, rest) := earliest t ts in
      let now := if Qle_bool (when t0) (clock (loop w))
                 then clock (loop w) else when t0 in
      let w1 := {| server := server w;
                   loop := {| clock := now; scheduled := rest |} |} in
      match callback t0 with
      | create_task_load_whitelist => Some (load_whitelist env w1)
      end
  end.

(** As many turns of the loop as there are environments to meet. *)
Fixpoint run_loop (envs : list Env) (w : World) : option World :=
  match envs with
  | [] => Some w
  | env :: envs' =>
      match run_timer env w with
      | None => None
      | Some (_, w') => run_loop envs' w'
      end
  end.

(** The start of the process: the server object is made and
    [loop.run_until_complete(s.load_whitelist())] runs the first load. *)
Definition startup (URL_EXPIRY_TIME WHITELIST_REFRESH : Z)
    (AWS_BUCKET WHITELIST_NAME : string) (env : Env) : outcome unit * World :=
  load_whitelist env
    {| server := Server_init URL_EXPIRY_TIME WHITELIST_REFRESH AWS_BUCKET WHITELIST_NAME;
       loop := {| clock := 0%Q; scheduled := [] |} |}.

(** ** Definitions the statements use *)

(** [n] path separators in a row. *)
Fixpoint slashes (n : nat) : string :=
  match n with
  | O => EmptyString
  | S n' => String "/" (slashes n')
  end.

(** The object key as the specification words it: the request path with a
    single leading path separator removed.  Compared below with
    [object_name_of], which is what the code computes. *)
Definition spec_strip_single_separator (p : string) : string :=
  match p with
  | EmptyString => EmptyString
  | String c rest => if Ascii.eqb c "/" then rest else p
  end.

(** A signer to run the code against: it spells out what it was asked to
    sign. *)
Definition example_s3 : S3Client :=
  {| generate_presigned_url := fun api_method api_args expires_in http_method =>
       match api_args !! "Bucket", api_args !! "Key" with
       | Some (PStr b), Some (PStr k) =>
           Ok ("https://" +:+ b +:+ ".s3.amazonaws.com/" +:+ k +:+
               "?op=" +:+ api_method +:+ "&m=" +:+ http_method)
       | _, _ => Failed "ParamValidationError"
       end |}.

Definition example_server (whitelist_name : string) : Server :=
  set_imei_whitelist (Server_init 86400 300 "fota" whitelist_name)
    {[ KStr "123456" ]}.

Definition example_request (m p : string) (q : list (string * string)) : Request :=
  {| method := m; path := p; GET := q |}.

(** An outside world in which the whitelist URL answers with [st] and a body
    that decodes to [body]; each await takes a while. *)
Definition example_env (st : Z) (body : io_result pyval) : Env :=
  {| s3 := example_s3;
     aiohttp_get := fun url =>
       (1 # 2, Ok {| status := st; json := (1 # 4, body) |})%Q |}.

Definition example_world : World :=
  {| server := example_server "whitelist.json";
     loop := {| clock := 0%Q; scheduled := [] |} |}.

(** The world of [env], except that every response carries status [st]. *)
Definition with_status (st : Z) (env : Env) : Env :=
  {| s3 := s3 env;
     aiohttp_get := fun url =>
       (fst (aiohttp_get env url),
        match snd (aiohttp_get env url) with
        | Ok resp => Ok {| status := st; json := json resp |}
        | Failed name => Failed name
        end) |}.

(** The statements of [load_whitelist] before [finally:]. *)
Definition load_whitelist_attempt (env : Env) : M unit :=
  try_except (load_whitelist_try env) (fun _ => mret tt).

(** An entry of the whitelist document that carries an [imei] field whose
    value hashes to [k]. *)
Definition entry_with_imei (entry : pyval) (k : pykey) : Prop :=
  ∃ fields v,
    entry = PDict fields ∧ dict_get fields "imei" = Some v ∧ py_hash v = Return k.

(** Between two runs of [load_whitelist]: exactly one timer is pending, it
    starts the next run, and it is due one refresh period after the last
    run was done. *)
Definition one_refresh_pending (period : Z) (w : World) : Prop :=
  whitelist_refresh_period (server w) = period ∧
  ∃ t, scheduled (loop w) = [t] ∧
       callback t = create_task_load_whitelist ∧
       when t = (clock (loop w) + inject_Z period)%Q.

(** ** Definitions for further properties of the code *)

(** The statements under [try:] in [load_whitelist] up to the assignment,
    without the time the awaits take: the keys the new set is built from,
    or the exception that stops the attempt. *)
Definition fetched_keys (env : Env) (me : Server) : outcome (list pykey) :=
  url ← make_object_url (s3 env) (bucket_name me) (whitelist_object_name me)
          "GET" 30 ∅;
  resp ← from_io (snd (aiohttp_get env url));
  data ← from_io (snd (json resp));
  whitelist ← py_getitem data "whitelist";
  items ← py_iter whitelist;
  imei_keys items.

(** The server object one refresh leaves behind: the fetched set when the
    attempt went through, the object as it was when it raised. *)
Definition refreshed (env : Env) (me : Server) : Server :=
  match fetched_keys env me with
  | Return ks => set_imei_whitelist me (list_to_set ks)
  | Raise _ => me
  end.

(** The world in which the task of the earliest timer starts: the first
    half of [run_timer]. *)
Definition timer_fired (w : World) : option World :=
  match scheduled (loop w) with
  | [] => None
  | t :: ts =>
      let '(t0, rest) := earliest t ts in
      Some {| server := server w;
              loop := {| clock := if Qle_bool (when t0) (clock (loop w))
                                  then clock (loop w) else when t0;
                         scheduled := rest |} |}
  end.

(** [make_app]: the routes of the application, in the order of the
    [app.router.add_route(method, path, handler)] calls.  The handler is the
    bound method [server.handle_request]; the S3 client is whatever
    [boto3.client] gives at the time of the request. *)
Record Route : Type := {
  route_method : string;
  route_path : string;
  route_handler : S3Client -> Request -> outcome Response
}.

Definition add_route (m p : string)
    (handler : S3Client -> Request -> outcome Response)
    (router : list Route) : list Route :=
  router ++ [ {| route_method := m; route_path := p; route_handler := handler |} ].

Definition make_app (server : Server) : list Route :=
  add_route "head" "/{path:.*}" (fun s3 => handle_request s3 server)
    (add_route "get" "/{path:.*}" (fun s3 => handle_request s3 server) []).

Definition ascii_upper (c : ascii) : ascii :=
  let n := nat_of_ascii c in
  if ((97 <=? n) && (n <=? 122))%nat then ascii_of_nat (n - 32) else c.

(** [s.upper()] on ASCII text. *)
Fixpoint upper (s : string) : string :=
  match s with
  | EmptyString => EmptyString
  | String c s' => String (ascii_upper c) (upper s')
  end.

(** The router hands a request to a route only when the request's method is
    the route's, which [add_route] keeps in upper case, and the route's path
    pattern matches; [matches] is the router's pattern matching. *)
Definition serves (matches : string -> string -> bool)
    (route : Route) (request : Request) : bool :=
  String.eqb (upper (route_method route)) (method request)
  && matches (route_path route) (path request).

(** ** The redirect decision *)

Lemma multidict_contains_absent key (d : list (string * string)) :
  (∀ v, (key, v) ∉ d) → multidict_contains key d = false.
Proof.
  induction d as [|[k v] d IH]; intros Habs; [reflexivity|].
  cbn. destruct (String.eqb_spec k key) as [->|Hne].
  - exfalso. apply (Habs v). left.
  - cbn. apply IH. intros v' Hin. apply (Habs v'). by right.
Qed.

Lemma multidict_getitem_contains key (d : list (string * string)) v :
  multidict_getitem d key = Return v → multidict_contains key d = true.
Proof.
  induction d as [|[k v'] d IH]; cbn; [discriminate|].
  destruct (String.eqb k key); cbn; auto.
Qed.

Lemma multidict_contains_getitem key (d : list (string * string)) :
  multidict_contains key d = true → ∃ v, multidict_getitem d key = Return v.
Proof.
  induction d as [|[k v'] d IH]; cbn; [discriminate|].
  destruct (String.eqb k key); cbn; eauto.
Qed.

(** What is left of [handle_request] once the identifier was found on the
    whitelist. *)
Lemma handle_request_authorized s3 self request imei :
  multidict_getitem (GET request) "imei" = Return imei →
  KStr imei ∈ imei_whitelist self →
  handle_request s3 self request =
    if String.eqb (object_name_of request) (whitelist_object_name self) then
      Return (WebResponse 403 "Forbidden")
    else
      _ ← py_assert (in_tuple (method request) ["GET"; "HEAD"]);
      url ← make_object_url s3 (bucket_name self) (object_name_of request)
               (method request) (expiry_time self) ∅;
      Return (HTTPFound url).
Proof.
  intros Hget Hin. unfold handle_request.
  rewrite (multidict_getitem_contains _ _ _ Hget), Hget. cbn.
  rewrite bool_decide_eq_true_2 by done. reflexivity.
Qed.

Lemma handle_request_missing s3 self request :
  multidict_contains "imei" (GET request) = false →
  handle_request s3 self request = Return (WebResponse 403 "Forbidden").
Proof. intros H. unfold handle_request. by rewrite H. Qed.

Lemma handle_request_unknown s3 self request imei :
  multidict_getitem (GET request) "imei" = Return imei →
  KStr imei ∉ imei_whitelist self →
  handle_request s3 self request = Return (WebResponse 401 "Unauthorized").
Proof.
  intros Hget Hnin. unfold handle_request.
  rewrite (multidict_getitem_contains _ _ _ Hget), Hget. cbn.
  by rewrite bool_decide_eq_false_2.
Qed.

(** C1. A request whose query string has no [imei] parameter is answered
    with status 403, whatever its method, its path and the whitelist. *)
Theorem missing_imei_is_forbidden s3 self request :
  (∀ v, ("imei", v) ∉ GET request) →
  handle_request s3 self request = Return (WebResponse 403 "Forbidden") ∧
  (∀ r, handle_request s3 self request = Return r → status_code r = 403).
Proof.
  intros Habs.
  pose proof (handle_request_missing s3 self request
                (multidict_contains_absent _ _ Habs)) as H.
  split; [exact H|]. intros r Hr. rewrite H in Hr. by inversion Hr.
Qed.

Lemma missing_imei_is_forbidden_witness :
  handle_request example_s3 (example_server "whitelist.json")
    (example_request "POST" "/firmware/v2.bin" [("serial", "123456")])
  = Return (WebResponse 403 "Forbidden").
Proof.
  apply (missing_imei_is_forbidden example_s3 (example_server "whitelist.json")
           (example_request "POST" "/firmware/v2.bin" [("serial", "123456")])).
  intros v Hin. cbn in Hin.
  apply list_elem_of_singleton in Hin. discriminate Hin.
Defined.

(** C2. A request whose [imei] parameter is not a member of the whitelist is
    answered with status 401, whatever its path; so is every request that
    carries an [imei] while the whitelist is still the empty set of
    [Server.__init__]. *)
Theorem unknown_imei_is_unauthorized s3 self request imei :
  multidict_getitem (GET request) "imei" = Return imei →
  KStr imei ∉ imei_whitelist self →
  handle_request s3 self request = Return (WebResponse 401 "Unauthorized") ∧
  (∀ r, handle_request s3 self request = Return r → status_code r = 401).
Proof.
  intros Hget Hnin.
  pose proof (handle_request_unknown s3 self request imei Hget Hnin) as H.
  split; [exact H|]. intros r Hr. rewrite H in Hr. by inversion Hr.
Qed.

Lemma unknown_imei_is_unauthorized_witness :
  handle_request example_s3 (Server_init 86400 300 "fota" "whitelist.json")
    (example_request "GET" "/firmware/v2.bin" [("imei", "123456")])
  = Return (WebResponse 401 "Unauthorized").
Proof.
  apply (unknown_imei_is_unauthorized example_s3
           (Server_init 86400 300 "fota" "whitelist.json")
           (example_request "GET" "/firmware/v2.bin" [("imei", "123456")])
           "123456").
  - reflexivity.
  - cbn. apply not_elem_of_empty.
Defined.

(** Before the first successful load the whitelist is the empty set of
    [Server.__init__], and every identifier is unknown. *)
Lemma empty_whitelist_rejects_every_imei s3 expiry period bucket name request imei :
  multidict_getitem (GET request) "imei" = Return imei →
  handle_request s3 (Server_init expiry period bucket name) request
  = Return (WebResponse 401 "Unauthorized").
Proof.
  intros Hget. apply (handle_request_unknown _ _ _ imei Hget).
  cbn. apply not_elem_of_empty.
Qed.

(** C3. For an identifier on the whitelist, a request whose object key is
    the configured name of the whitelist object is answered with status
    403, whatever its method: no redirect to the whitelist document. *)
Theorem whitelist_object_is_forbidden s3 self request imei :
  multidict_getitem (GET request) "imei" = Return imei →
  KStr imei ∈ imei_whitelist self →
  object_name_of request = whitelist_object_name self →
  handle_request s3 self request = Return (WebResponse 403 "Forbidden") ∧
  (∀ r, handle_request s3 self request = Return r →
        status_code r = 403 ∧ location_header r = None).
Proof.
  intros Hget Hin Hname.
  assert (H : handle_request s3 self request = Return (WebResponse 403 "Forbidden")).
  { rewrite (handle_request_authorized _ _ _ _ Hget Hin), Hname.
    by rewrite String.eqb_refl. }
  split; [exact H|]. intros r Hr. rewrite H in Hr. by inversion Hr.
Qed.

Lemma whitelist_object_is_forbidden_witness :
  handle_request example_s3 (example_server "whitelist.json")
    (example_request "GET" "/whitelist.json" [("imei", "123456")])
  = Return (WebResponse 403 "Forbidden").
Proof.
  apply (whitelist_object_is_forbidden example_s3 (example_server "whitelist.json")
           (example_request "GET" "/whitelist.json" [("imei", "123456")])
           "123456").
  - reflexivity.
  - cbn. by apply elem_of_singleton.
  - reflexivity.
Defined.

Lemma in_tuple_elem_of x t : in_tuple x t = true ↔ x ∈ t.
Proof.
  unfold in_tuple. rewrite existsb_exists. split.
  - intros (y & Hy & Heq). apply String.eqb_eq in Heq as ->.
    by apply list_elem_of_In.
  - intros Hin. exists x. split; [by apply list_elem_of_In|apply String.eqb_refl].
Qed.

Lemma make_object_url_read s3 bucket key m expires kwargs :
  m ∈ ["GET"; "HEAD"] →
  make_object_url s3 bucket key m expires kwargs =
    from_io (generate_presigned_url s3 "get_object"
               (kwargs ∪ {[ "Bucket" := PStr bucket; "Key" := PStr key ]})
               expires m).
Proof.
  intros Hm. unfold make_object_url.
  apply in_tuple_elem_of in Hm. by rewrite Hm.
Qed.

Lemma make_object_url_write s3 bucket key m expires kwargs :
  m ∈ ["PUT"; "POST"] →
  make_object_url s3 bucket key m expires kwargs =
    from_io (generate_presigned_url s3 "put_object"
               (kwargs ∪ {[ "Bucket" := PStr bucket; "Key" := PStr key ]})
               expires m).
Proof.
  intros Hm. unfold make_object_url.
  assert (Hr : in_tuple m ["GET"; "HEAD"] = false).
  { apply not_true_is_false. rewrite in_tuple_elem_of.
    set_unfold. intros [-> | [-> | []]]; destruct Hm as [? | [? | []]]; discriminate. }
  apply in_tuple_elem_of in Hm. by rewrite Hr, Hm.
Qed.

Lemma make_object_url_unsupported s3 bucket key m expires kwargs :
  m ∉ ["GET"; "HEAD"; "PUT"; "POST"] →
  make_object_url s3 bucket key m expires kwargs =
    Raise (ValueError ("Unsupported request_method: " +:+ m)).
Proof.
  intros Hm. unfold make_object_url.
  assert (Hr : in_tuple m ["GET"; "HEAD"] = false).
  { apply not_true_is_false. rewrite in_tuple_elem_of.
    intros Hin. apply Hm. set_unfold. tauto. }
  assert (Hw : in_tuple m ["PUT"; "POST"] = false).
  { apply not_true_is_false. rewrite in_tuple_elem_of.
    intros Hin. apply Hm. set_unfold. tauto. }
  by rewrite Hr, Hw.
Qed.

(** C4. A GET or HEAD request with an identifier on the whitelist and an
    object key other than the whitelist object's name is answered with what
    the signer issues for the read capability on exactly the configured
    bucket, the object key, the configured expiry and the request's method:
    every URL the signer issues for these comes back as the Location of a
    302 redirect, and nothing else is ever redirected to. *)
Theorem authorized_request_redirects_to_signed_url s3 self request imei :
  method request ∈ ["GET"; "HEAD"] →
  multidict_getitem (GET request) "imei" = Return imei →
  KStr imei ∈ imei_whitelist self →
  object_name_of request ≠ whitelist_object_name self →
  let issued :=
    generate_presigned_url s3 "get_object"
      {[ "Bucket" := PStr (bucket_name self);
         "Key" := PStr (object_name_of request) ]}
      (expiry_time self) (method request) in
  handle_request s3 self request = (url ← from_io issued; Return (HTTPFound url)) ∧
  (∀ url, issued = Ok url →
     handle_request s3 self request = Return (HTTPFound url) ∧
     status_code (HTTPFound url) = 302 ∧
     location_header (HTTPFound url) = Some url) ∧
  (∀ r, handle_request s3 self request = Return r →
     ∃ url, issued = Ok url ∧ r = HTTPFound url).
Proof.
  intros Hm Hget Hin Hname issued.
  assert (H : handle_request s3 self request
              = (url ← from_io issued; Return (HTTPFound url))).
  { rewrite (handle_request_authorized _ _ _ _ Hget Hin).
    apply String.eqb_neq in Hname. rewrite Hname.
    rewrite (proj2 (in_tuple_elem_of _ _) Hm).
    unfold py_assert, mbind, outcome_bind, obind.
    rewrite (make_object_url_read _ _ _ _ _ _ Hm).
    by rewrite (left_id_L ∅ (∪)). }
  split; [exact H|]. split.
  - intros url Hurl. rewrite H, Hurl. done.
  - intros r Hr. rewrite H in Hr. destruct issued as [url|name]; cbn in Hr.
    + exists url. split; [done|]. by inversion Hr.
    + discriminate Hr.
Qed.

Lemma authorized_request_redirects_to_signed_url_witness :
  handle_request example_s3 (example_server "whitelist.json")
    (example_request "GET" "/firmware/v2.bin" [("imei", "123456")])
  = Return (HTTPFound
      "https://fota.s3.amazonaws.com/firmware/v2.bin?op=get_object&m=GET").
Proof.
  apply (authorized_request_redirects_to_signed_url example_s3
           (example_server "whitelist.json")
           (example_request "GET" "/firmware/v2.bin" [("imei", "123456")])
           "123456").
  - cbn. left.
  - reflexivity.
  - cbn. by apply elem_of_singleton.
  - cbn. discriminate.
  - reflexivity.
Defined.

(** ** The object key *)

Lemma char_in_slash c : char_in c "/" = Ascii.eqb c "/".
Proof. unfold char_in. cbn. apply orb_false_r. Qed.

Lemma lstrip_slashes n p : lstrip (slashes n +:+ p) "/" = lstrip p "/".
Proof. induction n as [|n IH]; [reflexivity|]. cbn. exact IH. Qed.

Lemma lstrip_no_leading_slash p :
  (∀ rest, p ≠ String "/" rest) → lstrip p "/" = p.
Proof.
  destruct p as [|c p]; [reflexivity|]. intros Hp. cbn -[char_in].
  rewrite char_in_slash. destruct (Ascii.eqb_spec c "/") as [->|Hne]; [|reflexivity].
  by destruct (Hp p).
Qed.

Lemma lstrip_decompose p :
  ∃ n, p = slashes n +:+ lstrip p "/" ∧ ∀ rest, lstrip p "/" ≠ String "/" rest.
Proof.
  induction p as [|c p (n & Hp & Hno)].
  - exists O. split; [reflexivity|discriminate].
  - cbn -[char_in]. rewrite char_in_slash.
    destruct (Ascii.eqb_spec c "/") as [->|Hne].
    + exists (S n). split; [|exact Hno].
      change (String "/" p = String "/" (slashes n +:+ lstrip p "/")).
      f_equal. exact Hp.
    + exists O. split; [reflexivity|]. intros rest Heq. by inversion Heq.
Qed.

(** C5, as the specification words it, fails: of two leading separators the
    code removes both, where removing a single one leaves the second. *)
Lemma single_separator_strip_counterexample :
  object_name_of (example_request "GET" "//fw.bin" [("imei", "123456")]) = "fw.bin" ∧
  spec_strip_single_separator "//fw.bin" = "/fw.bin" ∧
  handle_request example_s3 (example_server "whitelist.json")
    (example_request "GET" "//fw.bin" [("imei", "123456")])
  = Return (HTTPFound "https://fota.s3.amazonaws.com/fw.bin?op=get_object&m=GET").
Proof. repeat split; vm_compute; reflexivity. Qed.

(** C5, amended.  The object key is the request path with every leading
    path separator removed and nothing else changed: the path is some
    number of separators followed by the key, and the key starts with none.
    Where the path does not start with two separators this is the path with
    a single leading separator removed. *)
Theorem object_name_strips_every_leading_separator request :
  (∃ n, path request = slashes n +:+ object_name_of request) ∧
  (∀ rest, object_name_of request ≠ String "/" rest) ∧
  ((∀ rest, path request ≠ String "/" (String "/" rest)) →
   object_name_of request = spec_strip_single_separator (path request)).
Proof.
  unfold object_name_of.
  destruct (lstrip_decompose (path request)) as (n & Hp & Hno).
  split; [by exists n|]. split; [exact Hno|].
  intros Htwo. destruct (path request) as [|c p]; [reflexivity|].
  cbn -[char_in]. rewrite char_in_slash.
  destruct (Ascii.eqb_spec c "/") as [->|Hne]; [|reflexivity].
  apply lstrip_no_leading_slash. intros rest ->. by apply (Htwo rest).
Qed.

(** ** make_object_url *)

(** C8. [make_object_url] raises its unsupported-method error exactly when
    the request method is none of GET, HEAD, PUT and POST; for GET and HEAD
    it asks the signer for [get_object], for PUT and POST for
    [put_object], with the method itself as the HTTP method. *)
Theorem make_object_url_method_contract s3 bucket key m expires kwargs :
  let api_args : gmap string pyval :=
    kwargs ∪ {[ "Bucket" := PStr bucket; "Key" := PStr key ]} in
  ((∃ msg, make_object_url s3 bucket key m expires kwargs = Raise (ValueError msg))
     ↔ m ∉ ["GET"; "HEAD"; "PUT"; "POST"]) ∧
  (m ∉ ["GET"; "HEAD"; "PUT"; "POST"] →
     make_object_url s3 bucket key m expires kwargs
     = Raise (ValueError ("Unsupported request_method: " +:+ m))) ∧
  make_object_url s3 bucket key "GET" expires kwargs
    = from_io (generate_presigned_url s3 "get_object" api_args expires "GET") ∧
  make_object_url s3 bucket key "HEAD" expires kwargs
    = from_io (generate_presigned_url s3 "get_object" api_args expires "HEAD") ∧
  make_object_url s3 bucket key "PUT" expires kwargs
    = from_io (generate_presigned_url s3 "put_object" api_args expires "PUT") ∧
  make_object_url s3 bucket key "POST" expires kwargs
    = from_io (generate_presigned_url s3 "put_object" api_args expires "POST").
Proof.
  intros api_args. split; [|split; [apply make_object_url_unsupported|]].
  - split.
    + intros [msg Hmsg] Hin.
      assert (Hcase : m ∈ ["GET"; "HEAD"] ∨ m ∈ ["PUT"; "POST"])
        by (set_unfold; tauto).
      destruct Hcase as [Hr|Hw].
      * rewrite (make_object_url_read _ _ _ _ _ _ Hr) in Hmsg.
        destruct (generate_presigned_url _ _ _ _ _); discriminate Hmsg.
      * rewrite (make_object_url_write _ _ _ _ _ _ Hw) in Hmsg.
        destruct (generate_presigned_url _ _ _ _ _); discriminate Hmsg.
    + intros Hm. eexists. by apply make_object_url_unsupported.
  - repeat split; reflexivity.
Qed.

(** ** Leading separators and the whitelist object *)

(** C10, as stated, fails twice over: a request for the whitelist object
    behind two separators is answered 401 when its identifier is unknown,
    and is redirected when the configured name itself starts with a
    separator, since no object key ever does. *)
Lemma slashes_before_whitelist_name_counterexample :
  handle_request example_s3 (example_server "whitelist.json")
    (example_request "GET" (slashes 2 +:+ "whitelist.json") [("imei", "999999")])
  = Return (WebResponse 401 "Unauthorized") ∧
  handle_request example_s3 (example_server "/whitelist.json")
    (example_request "GET" (slashes 1 +:+ "/whitelist.json") [("imei", "123456")])
  = Return (HTTPFound
      "https://fota.s3.amazonaws.com/whitelist.json?op=get_object&m=GET").
Proof. split; vm_compute; reflexivity. Qed.

(** C10, amended.  For every request, signer and configuration: the object
    key is the path with all its leading separators removed, so any number
    of separators before the same rest gives the same key and the same
    answer, and a request for the whitelist object's name behind any number
    of separators gets the key of the single-separator path.  Such a
    request is answered 403 when the configured name does not itself start
    with a separator and the request carries no identifier or one that is
    on the whitelist. *)
Theorem leading_separators_do_not_matter s3 self m query n n' p :
  let request_for p := {| method := m; path := p; GET := query |} in
  (∃ k, p = slashes k +:+ object_name_of (request_for p) ∧
        ∀ rest, object_name_of (request_for p) ≠ String "/" rest) ∧
  object_name_of (request_for (slashes n +:+ p))
    = object_name_of (request_for (slashes n' +:+ p)) ∧
  handle_request s3 self (request_for (slashes n +:+ p))
    = handle_request s3 self (request_for (slashes n' +:+ p)) ∧
  object_name_of (request_for (slashes n +:+ whitelist_object_name self))
    = object_name_of (request_for ("/" +:+ whitelist_object_name self)) ∧
  ((∀ rest, whitelist_object_name self ≠ String "/" rest) →
   (∀ imei, multidict_getitem query "imei" = Return imei →
            KStr imei ∈ imei_whitelist self) →
   handle_request s3 self (request_for (slashes n +:+ whitelist_object_name self))
   = Return (WebResponse 403 "Forbidden")).
Proof.
  intros request_for.
  assert (Hkey : ∀ k q, object_name_of (request_for (slashes k +:+ q))
                        = lstrip q "/").
  { intros k q. unfold object_name_of. cbn. apply lstrip_slashes. }
  split; [apply lstrip_decompose|].
  split; [by rewrite !Hkey|].
  split.
  { unfold handle_request. cbn [GET method]. by rewrite !Hkey. }
  split; [by rewrite Hkey, (Hkey 1%nat)|].
  intros Hname Hauth.
  destruct (multidict_contains "imei" query) eqn:Hq.
  - destruct (multidict_contains_getitem _ _ Hq) as [imei Hget].
    rewrite (handle_request_authorized _ _ _ imei); [|exact Hget|by apply Hauth].
    rewrite Hkey, (lstrip_no_leading_slash _ Hname).
    by rewrite String.eqb_refl.
  - by apply handle_request_missing.
Qed.

Lemma leading_separators_do_not_matter_witness :
  handle_request example_s3 (example_server "whitelist.json")
    (example_request "GET" "///whitelist.json" [("imei", "123456")])
  = Return (WebResponse 403 "Forbidden") ∧
  handle_request example_s3 (example_server "/whitelist.json")
    (example_request "GET" "///whitelist.json" [("imei", "999999")])
  = handle_request example_s3 (example_server "/whitelist.json")
    (example_request "GET" "/whitelist.json" [("imei", "999999")]).
Proof.
  split.
  - destruct (leading_separators_do_not_matter example_s3
                (example_server "whitelist.json") "GET" [("imei", "123456")]
                3%nat 1%nat "firmware/v2.bin") as (_ & _ & _ & _ & H403).
    apply H403.
    + intros rest. cbn. discriminate.
    + intros imei Hget. cbn in Hget. inversion Hget. cbn.
      by apply elem_of_singleton.
  - destruct (leading_separators_do_not_matter example_s3
                (example_server "/whitelist.json") "GET" [("imei", "999999")]
                3%nat 1%nat "whitelist.json") as (_ & _ & Hsame & _).
    exact Hsame.
Defined.

(** ** load_whitelist *)

Ltac unfold_coroutine :=
  unfold load_whitelist, load_whitelist_attempt, try_finally, try_except,
    load_whitelist_try, call_later, mbind, mret, M_bind, M_ret, get_self, lift,
    await, assign_imei_whitelist.

Ltac case_stage :=
  match goal with
  | |- context [match ?x with Return _ => _ | Raise _ => _ end] =>
      destruct x eqn:?
  | H : context [match ?x with Return _ => _ | Raise _ => _ end] |- _ =>
      destruct x eqn:?
  end.

(** The URL the whitelist document is fetched from. *)
Lemma whitelist_url_signed env (me : Server) :
  make_object_url (s3 env) (bucket_name me) (whitelist_object_name me) "GET" 30 ∅
  = from_io (generate_presigned_url (s3 env) "get_object"
               {[ "Bucket" := PStr (bucket_name me);
                  "Key" := PStr (whitelist_object_name me) ]} 30 "GET").
Proof.
  rewrite make_object_url_read by left. by rewrite (left_id_L ∅ (∪)).
Qed.

(** A run of the statements under [try:] that raises has assigned nothing:
    the assignment is the last statement that can be reached. *)
Lemma load_whitelist_try_raise env w e w1 :
  load_whitelist_try env w = (Raise e, w1) →
  server w1 = server w ∧ scheduled (loop w1) = scheduled (loop w).
Proof.
  unfold_coroutine. intros H.
  repeat case_stage; inversion H; subst; split; reflexivity.
Qed.

(** A run that returns went through every stage, and assigned the set of
    the keys. *)
Lemma load_whitelist_try_return env w u w1 :
  load_whitelist_try env w = (Return u, w1) →
  ∃ url resp data whitelist items ks,
    make_object_url (s3 env) (bucket_name (server w))
      (whitelist_object_name (server w)) "GET" 30 ∅ = Return url ∧
    snd (aiohttp_get env url) = Ok resp ∧
    snd (json resp) = Ok data ∧
    py_getitem data "whitelist" = Return whitelist ∧
    py_iter whitelist = Return items ∧
    imei_keys items = Return ks ∧
    server w1 = set_imei_whitelist (server w) (list_to_set ks) ∧
    scheduled (loop w1) = scheduled (loop w).
Proof.
  unfold_coroutine. intros H.
  destruct (make_object_url _ _ _ _ _ _) as [url|] eqn:Hurl; [|discriminate H].
  destruct (snd (aiohttp_get env url)) as [resp|] eqn:Hresp; [|discriminate H].
  cbn [from_io] in H.
  destruct (snd (json resp)) as [data|] eqn:Hdata; [|discriminate H].
  cbn [from_io] in H.
  destruct (py_getitem data "whitelist") as [whitelist|] eqn:Hwl; [|discriminate H].
  destruct (py_iter whitelist) as [items|] eqn:Hitems; [|discriminate H].
  destruct (imei_keys items) as [ks|] eqn:Hks; [|discriminate H].
  inversion H; subst. exists url, resp, data, whitelist, items, ks.
  repeat split; done.
Qed.

Lemma load_whitelist_try_stages env w url resp data whitelist items ks :
  make_object_url (s3 env) (bucket_name (server w))
    (whitelist_object_name (server w)) "GET" 30 ∅ = Return url →
  snd (aiohttp_get env url) = Ok resp →
  snd (json resp) = Ok data →
  py_getitem data "whitelist" = Return whitelist →
  py_iter whitelist = Return items →
  imei_keys items = Return ks →
  ∃ w1, load_whitelist_try env w = (Return tt, w1) ∧
        server w1 = set_imei_whitelist (server w) (list_to_set ks) ∧
        scheduled (loop w1) = scheduled (loop w).
Proof.
  intros Hurl Hresp Hdata Hwl Hitems Hks. unfold_coroutine.
  rewrite Hurl, Hresp. cbn [from_io]. rewrite Hdata. cbn [from_io].
  rewrite Hwl, Hitems, Hks. eexists. repeat split.
Qed.

(** The whole coroutine in terms of the statements before [finally:]: it
    returns, and the one timer it registers is due a refresh period after
    the moment those statements were done. *)
Lemma load_whitelist_finally env w :
  let w1 := snd (load_whitelist_attempt env w) in
  load_whitelist env w =
    (fst (load_whitelist_attempt env w),
     {| server := server w1;
        loop := {| clock := clock (loop w1);
                   scheduled := scheduled (loop w1) ++
                     [ {| when := (clock (loop w1)
                                   + inject_Z (whitelist_refresh_period (server w1)))%Q;
                          callback := create_task_load_whitelist |} ] |} |}).
Proof.
  unfold load_whitelist. fold (load_whitelist_attempt env).
  unfold try_finally. destruct (load_whitelist_attempt env w) as [r w1].
  reflexivity.
Qed.

(** The bare [except:] leaves nothing to propagate, and the statements
    before [finally:] leave timers and configuration alone. *)
Lemma load_whitelist_attempt_frame env w :
  fst (load_whitelist_attempt env w) = Return tt ∧
  scheduled (loop (snd (load_whitelist_attempt env w))) = scheduled (loop w) ∧
  whitelist_refresh_period (server (snd (load_whitelist_attempt env w)))
    = whitelist_refresh_period (server w).
Proof.
  unfold load_whitelist_attempt, try_except.
  destruct (load_whitelist_try env w) as [[[]|e] w1] eqn:Htry.
  - destruct (load_whitelist_try_return _ _ _ _ Htry)
      as (? & ? & ? & ? & ? & ks & _ & _ & _ & _ & _ & _ & Hs & Hl).
    cbn. rewrite Hs, Hl. done.
  - destruct (load_whitelist_try_raise _ _ _ _ Htry) as [Hs Hl].
    cbn. rewrite Hs, Hl. done.
Qed.

Lemma load_whitelist_attempt_raise env w e w1 :
  load_whitelist_try env w = (Raise e, w1) →
  server (snd (load_whitelist_attempt env w)) = server w.
Proof.
  intros Htry. unfold load_whitelist_attempt, try_except. rewrite Htry. cbn.
  by destruct (load_whitelist_try_raise _ _ _ _ Htry).
Qed.

(** The status of the response is never read. *)
Lemma load_whitelist_ignores_status st env w :
  load_whitelist (with_status st env) w = load_whitelist env w.
Proof.
  unfold_coroutine. unfold with_status. cbn.
  destruct (from_io (generate_presigned_url _ _ _ _ _)) as [url|]; [|reflexivity].
  destruct (aiohttp_get env url) as [d [resp|name]]; reflexivity.
Qed.

Lemma imei_keys_of_entries entries ks :
  Forall2 entry_with_imei entries ks → imei_keys entries = Return ks.
Proof.
  induction 1 as [|entry k entries ks (fields & v & -> & Hv & Hk) _ IH];
    [reflexivity|].
  cbn. rewrite Hv. cbn. rewrite Hk. cbn. rewrite IH. reflexivity.
Qed.

(** An entry without an [imei] field stops the construction of the set. *)
Lemma imei_keys_missing_field fields entries :
  dict_get fields "imei" = None →
  imei_keys (PDict fields :: entries) = Raise (KeyError "imei").
Proof. intros H. cbn. by rewrite H. Qed.

(** C6, as stated, fails for a response that is not 2xx: its status is
    never read, and a body that decodes to a whitelist document replaces
    the set all the same, here by the empty one. *)
Lemma non_2xx_refresh_counterexample :
  match snd (aiohttp_get (example_env 404 (Ok (PDict [("whitelist", PList [])])))
               EmptyString) with
  | Ok resp => status resp = 404
  | Failed _ => False
  end ∧
  imei_whitelist (server example_world) = {[ KStr "123456" ]} ∧
  imei_whitelist (server (snd
    (load_whitelist (example_env 404 (Ok (PDict [("whitelist", PList [])])))
       example_world))) = ∅.
Proof. repeat split; vm_compute; reflexivity. Qed.

(** C6, amended.  When a statement under [try:] raises (signing or fetching
    the whitelist URL, decoding the body, subscripting the document,
    subscripting or hashing an entry), [load_whitelist] still returns, with
    nothing left to propagate, and the server object, its whitelist
    included, is the one from before the attempt.  The status of the
    response does not make an attempt fail: a run is the same for every
    status. *)
Theorem failed_refresh_keeps_whitelist env w e w1 :
  load_whitelist_try env w = (Raise e, w1) →
  fst (load_whitelist env w) = Return tt ∧
  imei_whitelist (server (snd (load_whitelist env w))) = imei_whitelist (server w) ∧
  server (snd (load_whitelist env w)) = server w ∧
  (∀ st, load_whitelist (with_status st env) w = load_whitelist env w).
Proof.
  intros Htry.
  pose proof (load_whitelist_attempt_raise _ _ _ _ Htry) as Hs.
  destruct (load_whitelist_attempt_frame env w) as (Hr & _ & _).
  split; [|split; [|split]].
  - rewrite load_whitelist_finally. exact Hr.
  - rewrite load_whitelist_finally. cbn [fst snd server]. by rewrite Hs.
  - rewrite load_whitelist_finally. exact Hs.
  - intros st. apply load_whitelist_ignores_status.
Qed.

Lemma failed_refresh_keeps_whitelist_witness :
  imei_whitelist (server (snd
    (load_whitelist (example_env 200 (Failed "JSONDecodeError")) example_world)))
  = imei_whitelist (server example_world).
Proof.
  eapply (failed_refresh_keeps_whitelist
            (example_env 200 (Failed "JSONDecodeError")) example_world
            (External "JSONDecodeError")).
  vm_compute. reflexivity.
Defined.

(** C7. When the whitelist URL is signed and fetched, and the body decodes
    to a document [{"whitelist": [entry, ...]}] each of whose entries
    carries an [imei] field, [load_whitelist] returns and the whitelist is
    exactly the set of those [imei] values: what the set held before and
    what else the entries hold play no part. *)
Theorem successful_refresh_replaces_whitelist env w url resp doc entries ks :
  make_object_url (s3 env) (bucket_name (server w))
    (whitelist_object_name (server w)) "GET" 30 ∅ = Return url →
  snd (aiohttp_get env url) = Ok resp →
  snd (json resp) = Ok (PDict doc) →
  dict_get doc "whitelist" = Some (PList entries) →
  Forall2 entry_with_imei entries ks →
  fst (load_whitelist env w) = Return tt ∧
  imei_whitelist (server (snd (load_whitelist env w))) = list_to_set ks ∧
  (∀ k, k ∈ imei_whitelist (server (snd (load_whitelist env w))) ↔
        ∃ entry, entry ∈ entries ∧ entry_with_imei entry k).
Proof.
  intros Hurl Hresp Hdata Hwl Hentries.
  destruct (load_whitelist_try_stages env w url resp (PDict doc) (PList entries)
              entries ks) as (w1 & Htry & Hs & _); try done.
  { cbn. by rewrite Hwl. }
  { by apply imei_keys_of_entries. }
  rewrite load_whitelist_finally.
  unfold load_whitelist_attempt, try_except. rewrite Htry.
  cbn [fst snd server]. rewrite Hs. cbn [imei_whitelist set_imei_whitelist].
  repeat split; try done.
  - rewrite elem_of_list_to_set. intros Hk.
    destruct (proj1 (list_elem_of_lookup ks k) Hk) as [i Hi].
    destruct (Forall2_lookup_r _ _ _ _ _ Hentries Hi) as (entry & Hentry & He).
    exists entry. split; [|exact He]. apply list_elem_of_lookup. by exists i.
  - intros (entry & Hin & fields & v & -> & Hv & Hk).
    rewrite elem_of_list_to_set.
    destruct (proj1 (list_elem_of_lookup entries _) Hin) as [i Hi].
    destruct (Forall2_lookup_l _ _ _ _ _ Hentries Hi)
      as (k' & Hk' & fields' & v' & Heq & Hv' & Hk'').
    inversion Heq; subst fields'. rewrite Hv in Hv'. inversion Hv'; subst v'.
    rewrite Hk in Hk''. inversion Hk''; subst k'.
    apply list_elem_of_lookup. by exists i.
Qed.

Lemma successful_refresh_replaces_whitelist_witness :
  imei_whitelist (server (snd
    (load_whitelist
       (example_env 200 (Ok (PDict [("whitelist", PList
          [PDict [("imei", PStr "490154203237518"); ("model", PStr "x1")];
           PDict [("note", PNone); ("imei", PStr "356938035643809")]])])))
       example_world)))
  = list_to_set [KStr "490154203237518"; KStr "356938035643809"].
Proof.
  eapply (successful_refresh_replaces_whitelist
            (example_env 200 (Ok (PDict [("whitelist", PList
               [PDict [("imei", PStr "490154203237518"); ("model", PStr "x1")];
                PDict [("note", PNone); ("imei", PStr "356938035643809")]])])))
            example_world).
  - vm_compute. reflexivity.
  - reflexivity.
  - reflexivity.
  - reflexivity.
  - constructor; [eexists _, _; repeat split; reflexivity|].
    constructor; [eexists _, _; repeat split; reflexivity|].
    constructor.
Defined.

(** ** The refresh loop *)

Lemma load_whitelist_schedule env w :
  ∃ w', load_whitelist env w = (Return tt, w') ∧
    whitelist_refresh_period (server w') = whitelist_refresh_period (server w) ∧
    clock (loop w') = clock (loop (snd (load_whitelist_attempt env w))) ∧
    scheduled (loop w') = scheduled (loop w) ++
      [ {| when := (clock (loop w')
                    + inject_Z (whitelist_refresh_period (server w)))%Q;
           callback := create_task_load_whitelist |} ].
Proof.
  destruct (load_whitelist_attempt_frame env w) as (Hr & Hsched & Hperiod).
  eexists. split.
  - rewrite load_whitelist_finally, Hr. reflexivity.
  - cbn [server loop clock scheduled]. rewrite Hsched, Hperiod. done.
Qed.

Lemma run_timer_keeps_one_pending period env w :
  one_refresh_pending period w →
  ∃ w', run_timer env w = Some (Return tt, w') ∧ one_refresh_pending period w'.
Proof.
  intros (Hperiod & t & Hsched & Hcb & _).
  unfold run_timer. rewrite Hsched. cbn [earliest]. rewrite Hcb.
  match goal with |- context [load_whitelist env ?w1] =>
    destruct (load_whitelist_schedule env w1) as (w' & Hrun & Hp & _ & Hs)
  end.
  exists w'. split; [by rewrite Hrun|].
  cbn [server loop scheduled] in Hp, Hs. split; [congruence|].
  eexists. split; [exact Hs|]. split; [reflexivity|]. cbn [when].
  by rewrite Hperiod.
Qed.

Lemma run_loop_keeps_one_pending period envs w :
  one_refresh_pending period w →
  ∃ w', run_loop envs w = Some w' ∧ one_refresh_pending period w'.
Proof.
  revert w. induction envs as [|env envs IH]; intros w Hinv.
  - by exists w.
  - destruct (run_timer_keeps_one_pending period env w Hinv) as (w1 & Hrun & Hinv1).
    cbn [run_loop]. rewrite Hrun. by apply IH.
Qed.

Lemma startup_one_pending expiry period bucket name env :
  one_refresh_pending period (snd (startup expiry period bucket name env)).
Proof.
  unfold startup.
  match goal with |- context [load_whitelist env ?w0] =>
    destruct (load_whitelist_schedule env w0) as (w' & Hrun & Hp & _ & Hs)
  end.
  rewrite Hrun. cbn [snd]. cbn in Hp, Hs. split; [exact Hp|].
  eexists. split; [exact Hs|]. split; reflexivity.
Qed.

(** C9. Every run of [load_whitelist], whether the statements under [try:]
    return or raise, returns after registering exactly one timer: it starts
    the next run and is due [whitelist_refresh_period] seconds after the
    moment the attempt was done.  So from the start of the process on, and
    whatever the runs meet outside, the loop always finds the timer of the
    next run, and never more than that one. *)
Theorem load_whitelist_always_reschedules :
  (∀ env w,
     ∃ w', load_whitelist env w = (Return tt, w') ∧
       clock (loop w') = clock (loop (snd (load_whitelist_attempt env w))) ∧
       scheduled (loop w') = scheduled (loop w) ++
         [ {| when := (clock (loop (snd (load_whitelist_attempt env w)))
                       + inject_Z (whitelist_refresh_period (server w)))%Q;
              callback := create_task_load_whitelist |} ]) ∧
  (∀ expiry period bucket name env0 envs,
     ∃ w, run_loop envs (snd (startup expiry period bucket name env0)) = Some w ∧
          one_refresh_pending period w).
Proof.
  split.
  - intros env w.
    destruct (load_whitelist_schedule env w) as (w' & Hrun & _ & Hclock & Hs).
    exists w'. split; [exact Hrun|]. split; [exact Hclock|].
    by rewrite Hs, Hclock.
  - intros expiry period bucket name env0 envs.
    apply run_loop_keeps_one_pending, startup_one_pending.
Qed.

(** ** Further properties of handle_request *)

Lemma multidict_contains_false_getitem key (d : list (string * string)) :
  multidict_contains key d = false → multidict_getitem d key = Raise (KeyError key).
Proof.
  induction d as [|[k v] d IH]; cbn; [reflexivity|].
  destruct (String.eqb k key); cbn; [discriminate|exact IH].
Qed.

(** The three ways a request is looked at. *)
Lemma handle_request_by_cases s3 self request :
  (multidict_contains "imei" (GET request) = false ∧
   handle_request s3 self request = Return (WebResponse 403 "Forbidden")) ∨
  (∃ imei, multidict_getitem (GET request) "imei" = Return imei ∧
           (KStr imei ∉ imei_whitelist self) ∧
           handle_request s3 self request = Return (WebResponse 401 "Unauthorized")) ∨
  (∃ imei, multidict_getitem (GET request) "imei" = Return imei ∧
           KStr imei ∈ imei_whitelist self).
Proof.
  destruct (multidict_contains "imei" (GET request)) eqn:Hq.
  - destruct (multidict_contains_getitem _ _ Hq) as [imei Hget].
    destruct (decide (KStr imei ∈ imei_whitelist self)) as [Hin|Hnin].
    + right; right. by exists imei.
    + right; left. exists imei. split; [done|]. split; [done|].
      by apply (handle_request_unknown _ _ _ imei).
  - left. split; [done|]. by apply handle_request_missing.
Qed.

Lemma handle_request_wrong_method s3 self request imei :
  multidict_getitem (GET request) "imei" = Return imei →
  KStr imei ∈ imei_whitelist self →
  object_name_of request ≠ whitelist_object_name self →
  method request ∉ ["GET"; "HEAD"] →
  handle_request s3 self request = Raise AssertionError.
Proof.
  intros Hget Hin Hname Hm.
  rewrite (handle_request_authorized _ _ _ _ Hget Hin).
  apply String.eqb_neq in Hname. rewrite Hname.
  assert (Hf : in_tuple (method request) ["GET"; "HEAD"] = false).
  { apply not_true_is_false. by rewrite in_tuple_elem_of. }
  by rewrite Hf.
Qed.

Lemma handle_request_signed s3 self request imei :
  multidict_getitem (GET request) "imei" = Return imei →
  KStr imei ∈ imei_whitelist self →
  object_name_of request ≠ whitelist_object_name self →
  method request ∈ ["GET"; "HEAD"] →
  handle_request s3 self request =
    (url ← from_io (generate_presigned_url s3 "get_object"
                      {[ "Bucket" := PStr (bucket_name self);
                         "Key" := PStr (object_name_of request) ]}
                      (expiry_time self) (method request));
     Return (HTTPFound url)).
Proof.
  intros Hget Hin Hname Hm.
  rewrite (handle_request_authorized _ _ _ _ Hget Hin).
  apply String.eqb_neq in Hname. rewrite Hname.
  rewrite (proj2 (in_tuple_elem_of _ _) Hm).
  unfold py_assert, mbind, outcome_bind, obind.
  rewrite (make_object_url_read _ _ _ _ _ _ Hm).
  by rewrite (left_id_L ∅ (∪)).
Qed.

(** X1. Whenever [handle_request] answers with a redirect, the request
    carried an identifier that is on the whitelist, its method is GET or
    HEAD, its object key is not the whitelist object's name, and the
    Location is what the signer issued for reading that key. *)
Theorem redirect_implies_authorized s3 self request url :
  handle_request s3 self request = Return (HTTPFound url) →
  ∃ imei,
    multidict_getitem (GET request) "imei" = Return imei ∧
    KStr imei ∈ imei_whitelist self ∧
    method request ∈ ["GET"; "HEAD"] ∧
    object_name_of request ≠ whitelist_object_name self ∧
    generate_presigned_url s3 "get_object"
      {[ "Bucket" := PStr (bucket_name self);
         "Key" := PStr (object_name_of request) ]}
      (expiry_time self) (method request) = Ok url.
Proof.
  intros Hres.
  destruct (handle_request_by_cases s3 self request)
    as [[_ H]|[(imei & _ & _ & H)|(imei & Hget & Hin)]];
    [rewrite H in Hres; discriminate Hres
    |rewrite H in Hres; discriminate Hres|].
  exists imei. split; [done|]. split; [done|].
  destruct (decide (object_name_of request = whitelist_object_name self))
    as [Heq|Hname].
  { rewrite (handle_request_authorized _ _ _ _ Hget Hin), Heq,
      String.eqb_refl in Hres. discriminate Hres. }
  destruct (decide (method request ∈ ["GET"; "HEAD"])) as [Hm|Hm].
  - split; [done|]. split; [done|].
    rewrite (handle_request_signed _ _ _ _ Hget Hin Hname Hm) in Hres.
    destruct (generate_presigned_url _ _ _ _ _) as [url'|name]; cbn in Hres.
    + by inversion Hres.
    + discriminate Hres.
  - rewrite (handle_request_wrong_method _ _ _ _ Hget Hin Hname Hm) in Hres.
    discriminate Hres.
Qed.

Lemma redirect_implies_authorized_witness :
  ∃ imei,
    multidict_getitem [("imei", "123456")] "imei" = Return imei ∧
    KStr imei ∈ imei_whitelist (example_server "whitelist.json").
Proof.
  destruct (redirect_implies_authorized example_s3 (example_server "whitelist.json")
              (example_request "HEAD" "/firmware/v2.bin" [("imei", "123456")])
              "https://fota.s3.amazonaws.com/firmware/v2.bin?op=get_object&m=HEAD")
    as (imei & Hget & Hin & _).
  - vm_compute. reflexivity.
  - exists imei. split; [exact Hget|exact Hin].
Defined.

(** X2. [handle_request] ends in one of five ways and no other: a response
    with status 403, 401 or 302, the failed assertion on the method, or an
    exception of the signer.  No [KeyError] escapes the lookup of the
    identifier, and the unsupported-method error of [make_object_url] is
    never raised from here. *)
Theorem handle_request_outcomes s3 self request :
  (∃ r, handle_request s3 self request = Return r ∧
        status_code r ∈ [403; 401; 302]) ∨
  handle_request s3 self request = Raise AssertionError ∨
  (∃ name, handle_request s3 self request = Raise (External name)).
Proof.
  destruct (handle_request_by_cases s3 self request)
    as [[_ H]|[(imei & _ & _ & H)|(imei & Hget & Hin)]].
  - left. eexists. split; [exact H|]. cbn. set_unfold; tauto.
  - left. eexists. split; [exact H|]. cbn. set_unfold; tauto.
  - destruct (decide (object_name_of request = whitelist_object_name self))
      as [Heq|Hname].
    { left. eexists. split.
      - rewrite (handle_request_authorized _ _ _ _ Hget Hin), Heq.
        by rewrite String.eqb_refl.
      - cbn. set_unfold; tauto. }
    destruct (decide (method request ∈ ["GET"; "HEAD"])) as [Hm|Hm].
    + rewrite (handle_request_signed _ _ _ _ Hget Hin Hname Hm).
      destruct (generate_presigned_url _ _ _ _ _) as [url|name]; cbn.
      * left. eexists. split; [reflexivity|]. cbn. set_unfold; tauto.
      * right; right. by exists name.
    + right; left. by apply (handle_request_wrong_method _ _ _ imei).
Qed.

(** X3. A request with a whitelisted identifier for another object than the
    whitelist, but with a method other than GET and HEAD, fails the
    assertion: no URL is signed for it, whatever the signer would issue. *)
Theorem other_methods_fail_the_assertion s3 self request imei :
  multidict_getitem (GET request) "imei" = Return imei →
  KStr imei ∈ imei_whitelist self →
  object_name_of request ≠ whitelist_object_name self →
  method request ∉ ["GET"; "HEAD"] →
  handle_request s3 self request = Raise AssertionError ∧
  (∀ url, handle_request s3 self request ≠ Return (HTTPFound url)).
Proof.
  intros Hget Hin Hname Hm.
  rewrite (handle_request_wrong_method _ _ _ _ Hget Hin Hname Hm).
  split; [reflexivity|discriminate].
Qed.

Lemma other_methods_fail_the_assertion_witness :
  handle_request example_s3 (example_server "whitelist.json")
    (example_request "PUT" "/firmware/v2.bin" [("imei", "123456")])
  = Raise AssertionError.
Proof.
  apply (other_methods_fail_the_assertion example_s3
           (example_server "whitelist.json")
           (example_request "PUT" "/firmware/v2.bin" [("imei", "123456")])
           "123456").
  - reflexivity.
  - cbn. by apply elem_of_singleton.
  - cbn. discriminate.
  - cbn. intros Hin. set_unfold. destruct Hin as [?|[?|[]]]; discriminate.
Defined.

(** X4. Of a query string only the first [imei] parameter counts: two
    requests that agree on method, path and first [imei] value get the same
    answer, whatever else their query strings hold. *)
Theorem only_the_first_imei_counts s3 self m p query query' :
  multidict_getitem query "imei" = multidict_getitem query' "imei" →
  handle_request s3 self {| method := m; path := p; GET := query |}
  = handle_request s3 self {| method := m; path := p; GET := query' |}.
Proof.
  intros Hsame. unfold handle_request. cbn [GET method path object_name_of].
  assert (Hc : multidict_contains "imei" query = multidict_contains "imei" query').
  { destruct (multidict_contains "imei" query) eqn:Hq,
             (multidict_contains "imei" query') eqn:Hq'; try reflexivity.
    - destruct (multidict_contains_getitem _ _ Hq) as [v Hv].
      rewrite (multidict_contains_false_getitem _ _ Hq'), Hv in Hsame.
      discriminate Hsame.
    - destruct (multidict_contains_getitem _ _ Hq') as [v Hv].
      rewrite (multidict_contains_false_getitem _ _ Hq), Hv in Hsame.
      discriminate Hsame. }
  rewrite Hc, Hsame. reflexivity.
Qed.

Lemma only_the_first_imei_counts_witness :
  handle_request example_s3 (example_server "whitelist.json")
    {| method := "GET"; path := "/fw.bin";
       GET := [("imei", "123456"); ("imei", "999999")] |}
  = handle_request example_s3 (example_server "whitelist.json")
    {| method := "GET"; path := "/fw.bin";
       GET := [("lang", "en"); ("imei", "123456")] |}.
Proof.
  apply (only_the_first_imei_counts example_s3 (example_server "whitelist.json")
           "GET" "/fw.bin" [("imei", "123456"); ("imei", "999999")]
           [("lang", "en"); ("imei", "123456")]).
  reflexivity.
Defined.

Lemma append_empty_r s : s +:+ EmptyString = s.
Proof.
  induction s as [|c s IH]; [reflexivity|].
  change (String c (s +:+ EmptyString) = String c s). by f_equal.
Qed.

(** X5. The object key is empty exactly for the paths that consist of
    separators only, the empty path included: [/] and [//] ask for the
    object with the empty name. *)
Theorem object_name_empty_iff_only_separators request :
  object_name_of request = EmptyString ↔ ∃ n, path request = slashes n.
Proof.
  unfold object_name_of. split.
  - intros Hempty. destruct (lstrip_decompose (path request)) as (n & Hp & _).
    exists n. by rewrite Hempty, append_empty_r in Hp.
  - intros [n Hn]. rewrite Hn, <- (append_empty_r (slashes n)).
    by rewrite lstrip_slashes.
Qed.

(** ** make_app *)

Lemma handle_request_get_head_passes s3 self request :
  method request ∈ ["GET"; "HEAD"] →
  handle_request s3 self request ≠ Raise AssertionError.
Proof.
  intros Hm.
  destruct (handle_request_by_cases s3 self request)
    as [[_ H]|[(imei & _ & _ & H)|(imei & Hget & Hin)]];
    [by rewrite H|by rewrite H|].
  destruct (decide (object_name_of request = whitelist_object_name self))
    as [Heq|Hname].
  - by rewrite (handle_request_authorized _ _ _ _ Hget Hin), Heq, String.eqb_refl.
  - rewrite (handle_request_signed _ _ _ _ Hget Hin Hname Hm).
    by destruct (generate_presigned_url _ _ _ _ _).
Qed.

(** X6. The application routes only GET and HEAD to [handle_request]: a
    request that a route of [make_app] serves is handled by
    [server.handle_request], has one of these two methods, and so never
    fails the assertion on the method. *)
Theorem routed_requests_pass_the_assertion matches s3 server request route :
  route ∈ make_app server →
  serves matches route request = true →
  method request ∈ ["GET"; "HEAD"] ∧
  route_handler route s3 request = handle_request s3 server request ∧
  handle_request s3 server request ≠ Raise AssertionError.
Proof.
  intros Hroute Hserves.
  assert (Hm : method request ∈ ["GET"; "HEAD"]).
  { unfold make_app, add_route in Hroute. cbn in Hroute.
    unfold serves in Hserves. apply andb_true_iff in Hserves as [Hmeth _].
    apply String.eqb_eq in Hmeth.
    set_unfold. destruct Hroute as [->|[->|[]]]; cbn in Hmeth; auto. }
  split; [exact Hm|]. split.
  - unfold make_app, add_route in Hroute. cbn in Hroute.
    set_unfold. by destruct Hroute as [->|[->|[]]].
  - by apply handle_request_get_head_passes.
Qed.

Lemma routed_requests_pass_the_assertion_witness :
  handle_request example_s3 (example_server "whitelist.json")
    (example_request "HEAD" "/firmware/v2.bin" [("imei", "123456")])
  ≠ Raise AssertionError.
Proof.
  apply (routed_requests_pass_the_assertion (fun _ _ => true) example_s3
           (example_server "whitelist.json")
           (example_request "HEAD" "/firmware/v2.bin" [("imei", "123456")])
           {| route_method := "head"; route_path := "/{path:.*}";
              route_handler := fun s3 =>
                handle_request s3 (example_server "whitelist.json") |}).
  - unfold make_app, add_route. cbn. right. left.
  - reflexivity.
Defined.

(** ** Further properties of load_whitelist *)

(** The statements under [try:] return or raise as [fetched_keys] does. *)
Lemma load_whitelist_try_fetched env w :
  match fetched_keys env (server w) with
  | Return ks =>
      ∃ w1, load_whitelist_try env w = (Return tt, w1) ∧
            server w1 = set_imei_whitelist (server w) (list_to_set ks)
  | Raise e =>
      ∃ w1, load_whitelist_try env w = (Raise e, w1) ∧ server w1 = server w
  end.
Proof.
  unfold fetched_keys. unfold_coroutine. unfold outcome_bind, obind.
  destruct (make_object_url _ _ _ _ _ _) as [url|]; [|by eexists].
  destruct (snd (aiohttp_get env url)) as [resp|]; cbn [from_io]; [|by eexists].
  destruct (snd (json resp)) as [data|]; cbn [from_io]; [|by eexists].
  destruct (py_getitem data "whitelist") as [whitelist|]; [|by eexists].
  destruct (py_iter whitelist) as [items|]; [|by eexists].
  destruct (imei_keys items) as [ks|]; by eexists.
Qed.

Lemma load_whitelist_returns env w : fst (load_whitelist env w) = Return tt.
Proof.
  rewrite load_whitelist_finally. cbn [fst].
  by destruct (load_whitelist_attempt_frame env w) as (Hr & _ & _).
Qed.

(** What a run of [load_whitelist] does to the server object. *)
Lemma load_whitelist_server env w :
  server (snd (load_whitelist env w)) = refreshed env (server w).
Proof.
  rewrite load_whitelist_finally. cbn [snd server].
  unfold load_whitelist_attempt, try_except, refreshed.
  pose proof (load_whitelist_try_fetched env w) as H.
  destruct (fetched_keys env (server w)) as [ks|e];
    destruct H as (w1 & Htry & Hs); by rewrite Htry.
Qed.

(** The fetch reads the bucket and the name of the whitelist object, not the
    whitelist. *)
Lemma fetched_keys_set_imei_whitelist env me s :
  fetched_keys env (set_imei_whitelist me s) = fetched_keys env me.
Proof. reflexivity. Qed.

Lemma refreshed_again env me : refreshed env (refreshed env me) = refreshed env me.
Proof.
  unfold refreshed at 2. destruct (fetched_keys env me) as [ks|e] eqn:Hf.
  - unfold refreshed. rewrite fetched_keys_set_imei_whitelist, Hf. reflexivity.
  - unfold refreshed. by rewrite Hf.
Qed.

(** [imei_keys] goes through exactly on lists of entries that each carry a
    hashable [imei]. *)
Lemma imei_keys_return_iff entries ks :
  imei_keys entries = Return ks ↔ Forall2 entry_with_imei entries ks.
Proof.
  split; [|apply imei_keys_of_entries].
  revert ks. induction entries as [|entry entries IH]; intros ks H.
  - inversion H. constructor.
  - cbn in H.
    destruct (py_getitem entry "imei") as [v|] eqn:Hv; [|discriminate H].
    cbn in H. destruct (py_hash v) as [k|] eqn:Hk; [|discriminate H].
    cbn in H. destruct (imei_keys entries) as [ks'|]; [|discriminate H].
    inversion H; subst. constructor; [|by apply IH].
    destruct entry as [| | | | |fields]; try discriminate Hv.
    exists fields, v. cbn in Hv.
    destruct (dict_get fields "imei") as [v'|]; [|discriminate Hv].
    by inversion Hv; subst.
Qed.

Lemma imei_keys_bad_entry entries :
  Exists (fun entry => ∀ k, ¬ entry_with_imei entry k) entries →
  ∃ e, imei_keys entries = Raise e.
Proof.
  intros Hbad. destruct (imei_keys entries) as [ks|e] eqn:Hks; [|by exists e].
  apply imei_keys_return_iff in Hks.
  apply Exists_exists in Hbad as (entry & Hin & Hno).
  apply list_elem_of_lookup in Hin as [i Hi].
  destruct (Forall2_lookup_l _ _ _ _ _ Hks Hi) as (k & _ & Hk).
  by destruct (Hno k).
Qed.

(** With nothing on the whitelist every request is turned away. *)
Lemma handle_request_empty_whitelist s3 self request :
  imei_whitelist self = ∅ →
  ∃ r, handle_request s3 self request = Return r ∧ status_code r ∈ [403; 401].
Proof.
  intros Hempty.
  destruct (handle_request_by_cases s3 self request)
    as [[_ H]|[(imei & _ & _ & H)|(imei & _ & Hin)]].
  - eexists. split; [exact H|]. cbn. set_unfold; tauto.
  - eexists. split; [exact H|]. cbn. set_unfold; tauto.
  - rewrite Hempty in Hin. by apply not_elem_of_empty in Hin.
Qed.

Lemma fetched_keys_stages env me url resp data whitelist :
  make_object_url (s3 env) (bucket_name me) (whitelist_object_name me)
    "GET" 30 ∅ = Return url →
  snd (aiohttp_get env url) = Ok resp →
  snd (json resp) = Ok data →
  py_getitem data "whitelist" = Return whitelist →
  fetched_keys env me = (items ← py_iter whitelist; imei_keys items).
Proof.
  intros Hurl Hresp Hdata Hwl. unfold fetched_keys.
  rewrite Hurl. cbn. rewrite Hresp. cbn. rewrite Hdata. cbn. by rewrite Hwl.
Qed.

(** X7. Membership is by Python equality, and a string equals no number:
    after a refresh from a document whose [imei] values are all numbers,
    booleans or null, every request that carries an [imei] is answered 401,
    also the one that spells such a number. *)
Theorem non_string_imeis_authorize_nobody s3 env w ks request imei :
  fetched_keys env (server w) = Return ks →
  Forall (fun k => ∀ s, k ≠ KStr s) ks →
  multidict_getitem (GET request) "imei" = Return imei →
  handle_request s3 (server (snd (load_whitelist env w))) request
  = Return (WebResponse 401 "Unauthorized").
Proof.
  intros Hf Hks Hget. apply (handle_request_unknown _ _ _ imei Hget).
  rewrite load_whitelist_server. unfold refreshed. rewrite Hf.
  cbn [imei_whitelist set_imei_whitelist]. rewrite elem_of_list_to_set.
  intros Hin. rewrite Forall_forall in Hks. by apply (Hks _ Hin imei).
Qed.

Lemma non_string_imeis_authorize_nobody_witness :
  handle_request example_s3
    (server (snd (load_whitelist
       (example_env 200 (Ok (PDict [("whitelist", PList
          [PDict [("imei", PInt 123456)]])])))
       example_world)))
    (example_request "GET" "/firmware/v2.bin" [("imei", "123456")])
  = Return (WebResponse 401 "Unauthorized").
Proof.
  apply (non_string_imeis_authorize_nobody example_s3
           (example_env 200 (Ok (PDict [("whitelist", PList
              [PDict [("imei", PInt 123456)]])])))
           example_world [KInt 123456]
           (example_request "GET" "/firmware/v2.bin" [("imei", "123456")])
           "123456").
  - vm_compute. reflexivity.
  - constructor; [discriminate|constructor].
  - reflexivity.
Defined.

(** X8. A refresh that meets the same outside world twice leaves the same
    server object as one that meets it once: what a refresh leaves behind
    does not depend on the whitelist it found, except when it fails. *)
Theorem load_whitelist_idempotent env w :
  server (snd (load_whitelist env (snd (load_whitelist env w))))
  = server (snd (load_whitelist env w)).
Proof. rewrite !load_whitelist_server. apply refreshed_again. Qed.

(** X9. [load_whitelist] returns normally whatever it meets, and of the
    server object it changes nothing but [imei_whitelist]: bucket, whitelist
    object name, URL expiry and refresh period stay as configured. *)
Theorem load_whitelist_keeps_configuration env w :
  fst (load_whitelist env w) = Return tt ∧
  bucket_name (server (snd (load_whitelist env w))) = bucket_name (server w) ∧
  whitelist_object_name (server (snd (load_whitelist env w)))
    = whitelist_object_name (server w) ∧
  expiry_time (server (snd (load_whitelist env w))) = expiry_time (server w) ∧
  whitelist_refresh_period (server (snd (load_whitelist env w)))
    = whitelist_refresh_period (server w).
Proof.
  split; [apply load_whitelist_returns|].
  rewrite load_whitelist_server. unfold refreshed.
  by destruct (fetched_keys env (server w)).
Qed.

(** X10. A document whose ["whitelist"] is an empty list, an empty string or
    an empty object is taken as a whitelist with no entry: the refresh goes
    through and empties the set.  These are the only values that iterate
    to nothing. *)
Theorem empty_whitelist_document_clears_set env w url resp data whitelist :
  make_object_url (s3 env) (bucket_name (server w))
    (whitelist_object_name (server w)) "GET" 30 ∅ = Return url →
  snd (aiohttp_get env url) = Ok resp →
  snd (json resp) = Ok data →
  py_getitem data "whitelist" = Return whitelist →
  whitelist = PList [] ∨ whitelist = PStr EmptyString ∨ whitelist = PDict [] →
  py_iter whitelist = Return [] ∧
  fst (load_whitelist env w) = Return tt ∧
  imei_whitelist (server (snd (load_whitelist env w))) = ∅.
Proof.
  intros Hurl Hresp Hdata Hwl Hempty.
  assert (Hiter : py_iter whitelist = Return [])
    by (destruct Hempty as [->|[->| ->]]; reflexivity).
  split; [exact Hiter|]. split; [apply load_whitelist_returns|].
  rewrite load_whitelist_server. unfold refreshed.
  rewrite (fetched_keys_stages _ _ _ _ _ _ Hurl Hresp Hdata Hwl), Hiter.
  reflexivity.
Qed.

Lemma empty_whitelist_document_clears_set_witness :
  imei_whitelist (server (snd (load_whitelist
    (example_env 200 (Ok (PDict [("whitelist", PStr EmptyString)])))
    example_world))) = ∅.
Proof.
  eapply (empty_whitelist_document_clears_set
            (example_env 200 (Ok (PDict [("whitelist", PStr EmptyString)])))
            example_world).
  - vm_compute. reflexivity.
  - reflexivity.
  - reflexivity.
  - reflexivity.
  - right. left. reflexivity.
Defined.

(** X11. One entry that is no object, has no [imei] field, or has an
    unhashable one, anywhere in the list, makes the whole refresh fail:
    nothing of the document is taken, and the server object stays as it
    was. *)
Theorem one_bad_entry_rejects_document env w url resp data entries :
  make_object_url (s3 env) (bucket_name (server w))
    (whitelist_object_name (server w)) "GET" 30 ∅ = Return url →
  snd (aiohttp_get env url) = Ok resp →
  snd (json resp) = Ok data →
  py_getitem data "whitelist" = Return (PList entries) →
  Exists (fun entry => ∀ k, ¬ entry_with_imei entry k) entries →
  fst (load_whitelist env w) = Return tt ∧
  server (snd (load_whitelist env w)) = server w.
Proof.
  intros Hurl Hresp Hdata Hwl Hbad.
  split; [apply load_whitelist_returns|].
  rewrite load_whitelist_server. unfold refreshed.
  rewrite (fetched_keys_stages _ _ _ _ _ _ Hurl Hresp Hdata Hwl).
  destruct (imei_keys_bad_entry _ Hbad) as [e He]. cbn. by rewrite He.
Qed.

Lemma one_bad_entry_rejects_document_witness :
  server (snd (load_whitelist
    (example_env 200 (Ok (PDict [("whitelist", PList
       [PDict [("imei", PStr "490154203237518")];
        PDict [("serial", PStr "356938035643809")]])])))
    example_world)) = server example_world.
Proof.
  eapply (one_bad_entry_rejects_document
            (example_env 200 (Ok (PDict [("whitelist", PList
               [PDict [("imei", PStr "490154203237518")];
                PDict [("serial", PStr "356938035643809")]])])))
            example_world).
  - vm_compute. reflexivity.
  - reflexivity.
  - reflexivity.
  - reflexivity.
  - apply Exists_cons_tl, Exists_cons_hd.
    intros k (fields & v & Heq & Hv & _).
    inversion Heq; subst fields. discriminate Hv.
Defined.

(** X12. When the load at the start of the process fails, the process
    starts all the same, with the empty whitelist of [Server.__init__]: it
    answers every request with 403 or 401 and redirects none. *)
Theorem failed_first_load_fails_closed expiry period bucket name env e :
  fetched_keys env (Server_init expiry period bucket name) = Raise e →
  fst (startup expiry period bucket name env) = Return tt ∧
  imei_whitelist (server (snd (startup expiry period bucket name env))) = ∅ ∧
  (∀ s3 request, ∃ r,
     handle_request s3 (server (snd (startup expiry period bucket name env)))
       request = Return r ∧
     status_code r ∈ [403; 401]).
Proof.
  intros Hf. unfold startup.
  assert (Hs : server (snd (load_whitelist env
             {| server := Server_init expiry period bucket name;
                loop := {| clock := 0%Q; scheduled := [] |} |}))
               = Server_init expiry period bucket name).
  { rewrite load_whitelist_server. cbn [server]. unfold refreshed. by rewrite Hf. }
  split; [apply load_whitelist_returns|]. rewrite Hs.
  split; [reflexivity|].
  intros s3 request. by apply handle_request_empty_whitelist.
Qed.

Lemma failed_first_load_fails_closed_witness :
  imei_whitelist (server (snd
    (startup 86400 300 "fota" "whitelist.json"
       (example_env 403 (Failed "JSONDecodeError"))))) = ∅.
Proof.
  eapply (failed_first_load_fails_closed 86400 300 "fota" "whitelist.json"
            (example_env 403 (Failed "JSONDecodeError"))).
  vm_compute. reflexivity.
Defined.

(** ** Further properties of the refresh loop *)

Lemma run_timer_fired env w :
  run_timer env w = load_whitelist env <$> timer_fired w.
Proof.
  unfold run_timer, timer_fired.
  destruct (scheduled (loop w)) as [|t ts]; [reflexivity|].
  destruct (earliest t ts) as [t0 rest]. by destruct (callback t0).
Qed.

(** The world in which the pending run starts. *)
Lemma timer_fired_one_pending period w :
  one_refresh_pending period w →
  ∃ w1, timer_fired w = Some w1 ∧
        server w1 = server w ∧
        scheduled (loop w1) = [] ∧
        (clock (loop w) + inject_Z period <= clock (loop w1))%Q.
Proof.
  intros (_ & t & Hsched & _ & Hwhen).
  unfold timer_fired. rewrite Hsched. cbn [earliest].
  eexists. split; [reflexivity|]. cbn [server loop scheduled clock].
  split; [done|]. split; [done|]. rewrite <- Hwhen.
  destruct (Qle_bool (when t) (clock (loop w))) eqn:Hle.
  - by apply Qle_bool_iff.
  - apply Qle_refl.
Qed.

Lemma run_timer_refreshes period env w :
  one_refresh_pending period w →
  ∃ w', run_timer env w = Some (Return tt, w') ∧
        one_refresh_pending period w' ∧
        server w' = refreshed env (server w).
Proof.
  intros Hinv.
  destruct (run_timer_keeps_one_pending period env w Hinv) as (w' & Hrun & Hinv').
  exists w'. split; [exact Hrun|]. split; [exact Hinv'|].
  destruct (timer_fired_one_pending period w Hinv) as (w1 & Hfired & Hs & _).
  rewrite run_timer_fired, Hfired in Hrun. cbn in Hrun.
  inversion Hrun as [Hload].
  assert (Hw' : w' = snd (load_whitelist env w1)) by by rewrite Hload.
  by rewrite Hw', load_whitelist_server, Hs.
Qed.

Lemma run_loop_refreshes period envs w :
  one_refresh_pending period w →
  ∃ w', run_loop envs w = Some w' ∧
        one_refresh_pending period w' ∧
        server w' = fold_left (fun me env => refreshed env me) envs (server w).
Proof.
  revert w. induction envs as [|env envs IH]; intros w Hinv.
  - by exists w.
  - destruct (run_timer_refreshes period env w Hinv) as (w1 & Hrun & Hinv1 & Hs1).
    destruct (IH w1 Hinv1) as (w' & Hloop & Hinv' & Hs').
    exists w'. cbn [run_loop fold_left]. rewrite Hrun.
    split; [exact Hloop|]. split; [exact Hinv'|]. by rewrite Hs', Hs1.
Qed.

(** X13. Through any number of turns of the loop, the server object is the
    one that the refreshes leave behind one after the other: the whitelist
    is that of the last refresh that went through, and the one from before
    when none did. *)
Theorem run_loop_folds_refreshes period envs w :
  one_refresh_pending period w →
  ∃ w', run_loop envs w = Some w' ∧
        server w' = fold_left (fun me env => refreshed env me) envs (server w).
Proof.
  intros Hinv.
  destruct (run_loop_refreshes period envs w Hinv) as (w' & Hloop & _ & Hs).
  by exists w'.
Qed.

Lemma run_loop_folds_refreshes_witness :
  ∃ w', run_loop
          [example_env 200 (Ok (PDict [("whitelist", PList
             [PDict [("imei", PStr "490154203237518")]])]));
           example_env 500 (Failed "JSONDecodeError")]
          (snd (load_whitelist (example_env 200 (Failed "JSONDecodeError"))
                  example_world)) = Some w' ∧
        imei_whitelist (server w') = {[ KStr "490154203237518" ]}.
Proof.
  destruct (run_loop_folds_refreshes 300
              [example_env 200 (Ok (PDict [("whitelist", PList
                 [PDict [("imei", PStr "490154203237518")]])]));
               example_env 500 (Failed "JSONDecodeError")]
              (snd (load_whitelist (example_env 200 (Failed "JSONDecodeError"))
                      example_world)))
    as (w' & Hloop & Hs).
  - split; [reflexivity|]. eexists. split; [reflexivity|].
    split; reflexivity.
  - exists w'. split; [exact Hloop|]. rewrite Hs. vm_compute. reflexivity.
Defined.

(** X14. While every refresh fails, the whitelist that was loaded last keeps
    being served: after any number of failed refreshes the server object is
    the one from before them, and the next refresh is still pending. *)
Theorem failing_refreshes_keep_last_good period envs w :
  one_refresh_pending period w →
  Forall (fun env => ∃ e, fetched_keys env (server w) = Raise e) envs →
  ∃ w', run_loop envs w = Some w' ∧
        server w' = server w ∧
        one_refresh_pending period w'.
Proof.
  intros Hinv Hfail.
  destruct (run_loop_refreshes period envs w Hinv) as (w' & Hloop & Hinv' & Hs).
  exists w'. split; [exact Hloop|]. split; [|exact Hinv'].
  rewrite Hs. clear Hloop Hinv' Hs Hinv.
  induction Hfail as [|env envs [e He] _ IH]; [reflexivity|].
  cbn [fold_left]. unfold refreshed at 2. by rewrite He.
Qed.

Lemma failing_refreshes_keep_last_good_witness :
  ∃ w', run_loop
          [example_env 503 (Failed "JSONDecodeError");
           example_env 200 (Ok (PDict [("blacklist", PList [])]))]
          (snd (load_whitelist (example_env 200 (Failed "JSONDecodeError"))
                  example_world)) = Some w' ∧
        imei_whitelist (server w') = {[ KStr "123456" ]}.
Proof.
  destruct (failing_refreshes_keep_last_good 300
              [example_env 503 (Failed "JSONDecodeError");
               example_env 200 (Ok (PDict [("blacklist", PList [])]))]
              (snd (load_whitelist (example_env 200 (Failed "JSONDecodeError"))
                      example_world)))
    as (w' & Hloop & Hs & _).
  - split; [reflexivity|]. eexists. split; [reflexivity|].
    split; reflexivity.
  - constructor; [eexists; vm_compute; reflexivity|].
    constructor; [eexists; vm_compute; reflexivity|]. constructor.
  - exists w'. split; [exact Hloop|]. rewrite Hs. vm_compute. reflexivity.
Defined.

(** X15. The next run of [load_whitelist] starts no earlier than one
    refresh period after the last one was done, with the server object that
    one left, and while it runs no other run is pending: refreshes never
    overlap and never come closer together than the period. *)
Theorem next_refresh_waits_a_period period env w :
  one_refresh_pending period w →
  ∃ w1, timer_fired w = Some w1 ∧
        run_timer env w = Some (load_whitelist env w1) ∧
        server w1 = server w ∧
        scheduled (loop w1) = [] ∧
        (clock (loop w) + inject_Z period <= clock (loop w1))%Q.
Proof.
  intros Hinv.
  destruct (timer_fired_one_pending period w Hinv) as (w1 & Hfired & Hs & Hn & Hle).
  exists w1. split; [exact Hfired|]. split; [|done].
  by rewrite run_timer_fired, Hfired.
Qed.

Lemma next_refresh_waits_a_period_witness :
  ∃ w1, timer_fired (snd (load_whitelist
                 (example_env 200 (Failed "JSONDecodeError")) example_world))
        = Some w1 ∧
        ((3 # 4) + inject_Z 300 <= clock (loop w1))%Q.
Proof.
  destruct (next_refresh_waits_a_period 300
              (example_env 200 (Failed "JSONDecodeError"))
              (snd (load_whitelist (example_env 200 (Failed "JSONDecodeError"))
                      example_world)))
    as (w1 & Hfired & _ & _ & _ & Hle).
  - split; [reflexivity|]. eexists. split; [reflexivity|].
    split; reflexivity.
  - exists w1. split; [exact Hfired|].
    eapply Qle_trans; [|exact Hle]. vm_compute. discriminate.
Defined.
